(** * caddy-langneg: the [langneg] request matcher

    A shallow embedding of [langnegmatcher.go] (package [langnegmatcher]):
    the [Config] and [Matcher] structs and the methods [Provision],
    [Validate], [Match] and [matchLanguage].

    The matcher delegates the negotiation proper to the Go package
    [golang.org/x/text/language], which is not part of the repository.
    Its API, as far as the matcher calls it, is the interface
    [language.Lib]; the gate is embedded over an arbitrary implementation
    of that interface.  Module [engine] gives one implementation, written
    after sections 3 and 4.1 to 4.3 of the specification. *)

From Stdlib Require Import ZArith QArith Ascii String.
From stdpp Require Import base option strings list gmap.

Close Scope Q_scope.

(** ** Go runtime: results of code that may panic *)

Inductive result (A : Type) : Type :=
  | Ok (a : A)
  | Panic.
Arguments Ok {A} a.
Arguments Panic {A}.

#[global] Instance result_ret : MRet result := λ A a, Ok a.
#[global] Instance result_bind : MBind result := λ A B f ma,
  match ma with
  | Ok a => f a
  | Panic => Panic
  end.

(** [strings.Join(elems, sep)] *)
Definition Join (elems : list string) (sep : string) : string :=
  String.concat sep elems.

(** Go's [error] values; [nil] is [None]. *)
Definition error : Type := string.

(** ** The API of [golang.org/x/text/language] used by the matcher *)

Module language.

(** [language.Confidence]: [No], [Low], [High], [Exact]. *)
Inductive Confidence : Type := No | Low | High | Exact.

#[global] Instance Confidence_eq_dec : EqDecision Confidence.
Proof. solve_decision. Defined.

(** The types [Tag], [Base], [Region], [Script] and [Matcher] with the
    functions and methods that [langnegmatcher.go] calls.
    [MatchStrings] is variadic in Go; the matcher passes it exactly
    one header value. *)
Class Lib : Type := {
  Tag : Type;
  Base : Type;
  Region : Type;
  Script : Type;
  Matcher : Type;
  Und : Tag;
  Make : string → Tag;
  NewMatcher : list Tag → Matcher;
  MatchStrings : Matcher → string → Tag * Z;
  Tag_IsRoot : Tag → bool;
  Tag_Base : Tag → Base * Confidence;
  Tag_Region : Tag → Region * Confidence;
  Tag_Script : Tag → Script * Confidence;
  Base_String : Base → string;
  Region_String : Region → string;
  Script_String : Script → string
}.

End language.

(** ** The request, as far as the matcher reads and writes it *)

(** [http.Request]: the header map ([map[string][]string]) and the
    request-scoped variable table that [caddyhttp.SetVar] writes. *)
Record Request : Type := {
  Header : gmap string (list string);
  Vars : gmap string string
}.

(** [http.Header.Get]: the first value stored under the key, or the empty
    string. *)
Definition Header_Get (h : gmap string (list string)) (key : string) : string :=
  match h !! key with
  | Some (v :: _) => v
  | _ => ""
  end.

(** Modelled from the spec: the request-scoped variable storage
    ([caddyhttp.SetVar], not under src/): the value is published under the
    given name, replacing what was stored there. *)
Definition SetVar (r : Request) (key value : string) : Request :=
  {| Header := Header r; Vars := <[key := value]> (Vars r) |}.

(** [*zap.Logger]; its output is not part of the modelled state, only
    whether the pointer is [nil] matters (a call on [nil] panics). *)
Inductive Logger : Type := zapLogger.

(** [caddy.Context], of which [Provision] only takes the logger. *)
Record Context : Type := { Context_Logger : Logger }.

(** ** [langnegmatcher.go] *)

Record Config : Type := {
  MatchLanguages : list string;
  FullLocale : bool;
  VarLanguage : string;
  FallbackValue : string
}.

Section Gate.
Context {L : language.Lib}.

(** [type Matcher struct]; the struct field [Config] is [MConfig] here,
    since the type has that name.  A [nil] matcher or logger is [None]. *)
Record Matcher : Type := {
  MConfig : Config;
  LanguageMatcher : option language.Matcher;
  logger : option Logger
}.

(** [func (m *Matcher) Provision(ctx caddy.Context) error]: returns the
    receiver after the assignments, and the error. *)
Definition Provision (m : Matcher) (ctx : Context) : Matcher * option error :=
  let MatchTLanguages : list language.Tag := [] in
  let MatchTLanguages := MatchTLanguages ++ [language.Und] in
  let MatchTLanguages :=
    fold_left (λ acc l, acc ++ [language.Make l])
              (MatchLanguages (MConfig m)) MatchTLanguages in
  ({| MConfig := MConfig m;
      LanguageMatcher := Some (language.NewMatcher MatchTLanguages);
      logger := Some (Context_Logger ctx) |},
   None).

(** [func (m *Matcher) Validate() error] *)
Definition Validate (m : Matcher) : option error :=
  if (length (MatchLanguages (MConfig m)) =? 0)%nat
     && (0 <? String.length (VarLanguage (MConfig m)))%nat
  then Some "you cannot specify a variable to store content negotiation results (for languages) if you don't also specify what languages are offered. (Use '*' to work around this constraint.)"
  else None.

(** [func (m *Matcher) matchLanguage(r *http.Request) (bool, string)].
    The two [Debug] calls need a logger, [language.MatchStrings] a
    matcher; [fmt.Print(idx)] only writes to the standard output. *)
Definition matchLanguage (m : Matcher) (r : Request) : result (bool * string) :=
  let headerValue := Header_Get (Header r) "Accept-Language" in
  match logger m with
  | None => Panic
  | Some _ =>
    match LanguageMatcher m with
    | None => Panic
    | Some lm =>
      let '(tag, idx) := language.MatchStrings lm headerValue in
      let match_ := negb (language.Tag_IsRoot tag) in
      if match_ then
        if FullLocale (MConfig m) then
          let res : list string := [] in
          let '(b, bc) := language.Tag_Base tag in
          let '(r, rc) := language.Tag_Region tag in
          let '(s, sc) := language.Tag_Script tag in
          let res :=
            if decide (bc = language.Exact)
            then res ++ [language.Base_String b] else res in
          let res :=
            if decide (rc = language.Exact)
            then res ++ [language.Region_String r] else res in
          let res :=
            if decide (sc = language.Exact)
            then res ++ [language.Script_String s] else res in
          Ok (match_, Join res "-")
        else
          let '(b, _) := language.Tag_Base tag in
          Ok (match_, language.Base_String b)
      else Ok (match_, "")
    end
  end.

(** [func (m *Matcher) Match(r *http.Request) bool]: the boolean and
    the request after the call.  The [Debug] calls come after
    [matchLanguage] has returned, so the logger is not [nil] there. *)
Definition Match (m : Matcher) (r : Request) : result (bool * Request) :=
  let c := MConfig m in
  if (length (MatchLanguages c) =? 0)%nat then Ok (true, r)
  else
    '(languageMatch, locale) ← matchLanguage m r;
    if languageMatch && (0 <? String.length (VarLanguage c))%nat then
      Ok (languageMatch, SetVar r ("langneg_" +:+ VarLanguage c) locale)
    else if (0 <? String.length (FallbackValue c))%nat
            && (0 <? String.length (VarLanguage c))%nat then
      Ok (true, SetVar r ("langneg_" +:+ VarLanguage c) (FallbackValue c))
    else Ok (languageMatch, r).

(** *** Vocabulary for the statements about the gate *)

(** [new(Matcher)] with the configuration that [UnmarshalCaddyfile]
    stores: no language matcher and no logger yet. *)
Definition New (c : Config) : Matcher :=
  {| MConfig := c; LanguageMatcher := None; logger := None |}.

(** The tag that the library selects for a request, for a matcher
    provisioned from the configuration [c]. *)
Definition negotiated_tag (c : Config) (r : Request) : language.Tag :=
  fst (language.MatchStrings
         (language.NewMatcher
            (language.Und :: map language.Make (MatchLanguages c)))
         (Header_Get (Header r) "Accept-Language")).

(** The components of a tag in the order language, region, script, each
    as its string with its confidence. *)
Definition components (t : language.Tag) : list (string * language.Confidence) :=
  [ (language.Base_String (fst (language.Tag_Base t)), snd (language.Tag_Base t));
    (language.Region_String (fst (language.Tag_Region t)), snd (language.Tag_Region t));
    (language.Script_String (fst (language.Tag_Script t)), snd (language.Tag_Script t)) ].

(** The strings of the components whose confidence is [Exact]. *)
Definition exact_components (t : language.Tag) : list string :=
  omap (λ sc : string * language.Confidence,
          if decide (snd sc = language.Exact) then Some (fst sc) else None)
       (components t).

(** The Locale Formatter of section 4.4 of the specification, in its
    words: the language component alone, or the hyphen-join of the
    exact components. *)
Definition format_locale (fullLocale : bool) (t : language.Tag) : string :=
  if fullLocale then Join (exact_components t) "-"
  else language.Base_String (fst (language.Tag_Base t)).

(** The effect of one call on the request: nothing, or one variable
    written with one value. *)
Definition publish (w : option (string * string)) (r : Request) : Request :=
  match w with
  | Some (k, v) => SetVar r k v
  | None => r
  end.

(** The branches of [Match] on a provisioned matcher, flattened: the
    boolean and the variable written, if any. *)
Definition Match_outcome (c : Config) (r : Request)
  : bool * option (string * string) :=
  if decide (MatchLanguages c = []) then (true, None)
  else
    let t := negotiated_tag c r in
    let key := "langneg_" +:+ VarLanguage c in
    if language.Tag_IsRoot t then
      if decide (VarLanguage c = "") then (false, None)
      else if decide (FallbackValue c = "") then (false, None)
      else (true, Some (key, FallbackValue c))
    else
      if decide (VarLanguage c = "") then (true, None)
      else (true, Some (key, format_locale (FullLocale c) t)).

End Gate.

(** ** A negotiation engine after the specification

    Sections 3 and 4.1 to 4.3 of the specification describe the tag
    model, the header parser and the match engine that the Go package
    provides to the matcher.  Qualities and scores are rationals. *)

Module engine.

(** Modelled from the spec: the LanguageRange of section 3 (the
    negotiation library is not under src/): a client preference, a tag
    string with a quality. *)
Record LanguageRange : Type := {
  range_tag : string;
  quality : Q
}.

(** Modelled from the spec: the LanguageTag of section 3 (the negotiation
    library is not under src/): three optional component slots and one
    exactness flag per component. *)
Record LanguageTag : Type := {
  tag_language : option string;
  tag_script : option string;
  tag_region : option string;
  exact_language : bool;
  exact_script : bool;
  exact_region : bool
}.

(** Modelled from the spec: the distinguished Root/wildcard tag. *)
Definition Root : LanguageTag :=
  {| tag_language := None; tag_script := None; tag_region := None;
     exact_language := false; exact_script := false; exact_region := false |}.

Definition present {A : Type} (o : option A) : bool :=
  match o with
  | Some _ => true
  | None => false
  end.

Definition is_root (t : LanguageTag) : bool :=
  negb (present (tag_language t) || present (tag_script t)
        || present (tag_region t)).

(** *** Characters and splitting *)

Definition in_range (lo hi c : ascii) : bool :=
  (N_of_ascii lo <=? N_of_ascii c)%N && (N_of_ascii c <=? N_of_ascii hi)%N.

Definition is_alpha (c : ascii) : bool :=
  in_range "a" "z" c || in_range "A" "Z" c.

Definition is_digit (c : ascii) : bool := in_range "0" "9" c.

Definition is_space (c : ascii) : bool :=
  Ascii.eqb c " " || Ascii.eqb c "009".

Fixpoint all_chars (p : ascii → bool) (s : string) : bool :=
  match s with
  | EmptyString => true
  | String c s' => p c && all_chars p s'
  end.

(** Does the character occur in the string? *)
Fixpoint contains (c : ascii) (s : string) : bool :=
  match s with
  | EmptyString => false
  | String d s' => Ascii.eqb d c || contains c s'
  end.

(** The pieces of [s] between the occurrences of [sep]. *)
Fixpoint split (sep : ascii) (s : string) : list string :=
  match s with
  | EmptyString => [EmptyString]
  | String c s' =>
    if Ascii.eqb c sep then EmptyString :: split sep s'
    else match split sep s' with
         | [] => [String c EmptyString]
         | p :: ps => String c p :: ps
         end
  end.

Fixpoint trim_left (s : string) : string :=
  match s with
  | String c s' => if is_space c then trim_left s' else s
  | EmptyString => EmptyString
  end.

Fixpoint trim_right (s : string) : string :=
  match s with
  | String c s' =>
    match trim_right s' with
    | EmptyString => if is_space c then EmptyString else String c EmptyString
    | t => String c t
    end
  | EmptyString => EmptyString
  end.

Definition trim (s : string) : string := trim_right (trim_left s).

(** *** Section 4.2: parsing an identifier into a tag *)

Definition is_language_subtag (s : string) : bool :=
  all_chars is_alpha s
  && (2 <=? String.length s)%nat && (String.length s <=? 3)%nat.

Definition is_script_subtag (s : string) : bool :=
  all_chars is_alpha s && (String.length s =? 4)%nat.

Definition is_region_subtag (s : string) : bool :=
  (all_chars is_alpha s && (String.length s =? 2)%nat)
  || (all_chars is_digit s && (String.length s =? 3)%nat).

(** Modelled from the spec: the Tag Model parser of section 4.2 (the
    negotiation library is not under src/).  The first subtag is the
    language if it has two or three letters; a following subtag of four
    letters is the script; a following subtag of two letters or three
    digits is the region; further subtags are ignored.  The wildcards and
    identifiers without a language subtag give Root. *)
Definition parse_tag (s : string) : LanguageTag :=
  if String.eqb s "*" || String.eqb s "*-*" then Root
  else
    match split "-" s with
    | l :: rest =>
      if is_language_subtag l then
        let '(sc, rest) :=
          match rest with
          | x :: rest' =>
            if is_script_subtag x then (Some x, rest') else (None, rest)
          | [] => (None, [])
          end in
        let rg :=
          match rest with
          | x :: _ => if is_region_subtag x then Some x else None
          | [] => None
          end in
        {| tag_language := Some l; tag_script := sc; tag_region := rg;
           exact_language := true;
           exact_script := present sc;
           exact_region := present rg |}
      else Root
    | [] => Root
    end.

(** *** Section 4.1: parsing the header into weighted ranges *)

Definition digit_value (c : ascii) : N := (N_of_ascii c - 48)%N.

Fixpoint digits_value (s : string) (acc : N) : N :=
  match s with
  | EmptyString => acc
  | String c s' => digits_value s' (10 * acc + digit_value c)%N
  end.

Definition is_number (s : string) : bool :=
  all_chars is_digit s && (1 <=? String.length s)%nat.

(** A decimal numeral: digits, optionally a point and further digits. *)
Definition parse_real (s : string) : option Q :=
  match split "." s with
  | [i] =>
    if is_number i then Some (inject_Z (Z.of_N (digits_value i 0))) else None
  | [i; f] =>
    if is_number i && all_chars is_digit f then
      Some (Qmake (Z.of_N (digits_value (i +:+ f) 0))
                  (Z.to_pos (10 ^ Z.of_nat (String.length f))))
    else None
  | _ => None
  end.

(** The weight is a real number of the interval from 0 to 1. *)
Definition parse_weight (s : string) : option Q :=
  q ← parse_real s;
  if Qle_bool 0 q && Qle_bool q 1 then Some q else None.

(** Cut a segment at its first [;q=] (the parameter name in either case):
    the text before it, and the text after it when there is one. *)
Fixpoint cut_q (s : string) : string * option string :=
  if String.prefix ";q=" s || String.prefix ";Q=" s then
    (EmptyString, Some (String.substring 3 (String.length s - 3) s))
  else
    match s with
    | EmptyString => (EmptyString, None)
    | String c s' => let '(t, w) := cut_q s' in (String c t, w)
    end.

(** One segment: without a weight the quality is 1; a segment whose
    weight is malformed or out of range is dropped. *)
Definition parse_range (seg : string) : option LanguageRange :=
  let '(t, w) := cut_q seg in
  match w with
  | None => Some {| range_tag := t; quality := 1 |}
  | Some ws => q ← parse_weight ws; Some {| range_tag := t; quality := q |}
  end.

(** Modelled from the spec: the LanguageRange Parser of section 4.1 (the
    negotiation library is not under src/): split on commas, trim, discard
    the empty segments, parse each segment; the order of the header is
    kept. *)
Definition parse_ranges (header : string) : list LanguageRange :=
  omap parse_range
       (List.filter (λ seg, negb (String.eqb seg ""))
                    (map trim (split "," header))).

(** *** Section 4.3: the match engine *)

Definition Qlt_b (a b : Q) : bool := negb (Qle_bool b a).

Definition Qmax_b (a b : Q) : Q := if Qle_bool a b then b else a.

(** Step 1: a stable sort by descending quality (a range goes before
    the ranges of the same quality listed after it), without the ranges
    of quality 0. *)
Fixpoint insert_range (r : LanguageRange) (l : list LanguageRange)
  : list LanguageRange :=
  match l with
  | [] => [r]
  | y :: ys =>
    if Qlt_b (quality r) (quality y) then y :: insert_range r ys else r :: l
  end.

Definition sort_ranges (l : list LanguageRange) : list LanguageRange :=
  foldr insert_range [] l.

Definition prepare_ranges (l : list LanguageRange) : list LanguageRange :=
  List.filter (λ r, negb (Qeq_bool (quality r) 0)) (sort_ranges l).

(** Both sides give the component, marked exact, and it is the same. *)
Definition exact_equal (ea eb : bool) (a b : option string) : bool :=
  match a, b with
  | Some x, Some y => ea && eb && String.eqb x y
  | _, _ => false
  end.

(** Step 3: the score of a range tag against an offered tag. *)
Definition score (r o : LanguageTag) : Q :=
  if is_root r || is_root o then
    if is_root r && is_root o then 0 else (1 # 2)
  else if exact_equal (exact_language r) (exact_language o)
                      (tag_language r) (tag_language o) then
    let script_eq := exact_equal (exact_script r) (exact_script o)
                                 (tag_script r) (tag_script o) in
    let region_eq := exact_equal (exact_region r) (exact_region o)
                                 (tag_region r) (tag_region o) in
    let script_open := negb (present (tag_script r) && present (tag_script o)) in
    let region_open := negb (present (tag_region r) && present (tag_region o)) in
    if script_eq && region_eq then 3
    else if script_open && region_eq then 2
    else if script_open || region_open then 1
    else 0
  else 0.

(** Step 4: the effective score against one range, and the total
    confidence of an offered tag, the maximum over the ranges. *)
Definition effective (o : LanguageTag) (r : LanguageRange) : Q :=
  (score (parse_tag (range_tag r)) o * quality r)%Q.

Definition confidence (ranges : list LanguageRange) (o : LanguageTag) : Q :=
  foldr (λ r acc, Qmax_b (effective o r) acc) 0%Q ranges.

(** Step 5: the offered tag of highest confidence with its position, the
    earlier tag on a tie. *)
Fixpoint best (ranges : list LanguageRange) (offered : list LanguageTag)
  (i : Z) (cur : LanguageTag * Z * Q) : LanguageTag * Z * Q :=
  match offered with
  | [] => cur
  | o :: os =>
    let c := confidence ranges o in
    best ranges os (i + 1)%Z (if Qlt_b (snd cur) c then (o, i, c) else cur)
  end.

(** Step 6: with confidence 0 there is no match and Root is returned;
    otherwise the best tag is.  (The specification calls confidence 0 no
    match and confidence at least 1/2 a match.  The scores of step 3 are
    0 or at least 1/2; the qualities of the header scale them, and a
    positive product below 1/2 is taken as a match here.) *)
Definition select (ranges : list LanguageRange) (offered : list LanguageTag)
  : LanguageTag * Z :=
  let '(t, i, c) := best ranges offered 0%Z (Root, 0%Z, 0%Q) in
  if Qlt_b 0 c then (t, i) else (Root, 0%Z).

(** Modelled from the spec: the Match Engine of section 4.3 on a raw
    header (the negotiation library is not under src/). *)
Definition match_header (offered : list LanguageTag) (header : string)
  : LanguageTag * Z :=
  select (prepare_ranges (parse_ranges header)) offered.

Definition component_confidence (exact : bool) : language.Confidence :=
  if exact then language.Exact else language.No.

Definition component_string (c : option string) : string :=
  default EmptyString c.

(** The engine as an implementation of the library interface: a matcher
    is its list of offered tags. *)
#[global] Instance lib : language.Lib := {|
  language.Tag := LanguageTag;
  language.Base := option string;
  language.Region := option string;
  language.Script := option string;
  language.Matcher := list LanguageTag;
  language.Und := Root;
  language.Make := parse_tag;
  language.NewMatcher := λ tags, tags;
  language.MatchStrings := match_header;
  language.Tag_IsRoot := is_root;
  language.Tag_Base := λ t,
    (tag_language t, component_confidence (exact_language t));
  language.Tag_Region := λ t,
    (tag_region t, component_confidence (exact_region t));
  language.Tag_Script := λ t,
    (tag_script t, component_confidence (exact_script t));
  language.Base_String := component_string;
  language.Region_String := component_string;
  language.Script_String := component_string
|}.


(** The language subtag of an identifier, when it has one; an identifier
    without one is malformed (section 4.2). *)
Definition language_subtag (s : string) : option string :=
  match split "-" s with
  | l :: _ => if is_language_subtag l then Some l else None
  | [] => None
  end.

End engine.

(** ** Sample requests and configurations *)

(** A request with the given [Accept-Language] value and no variables. *)
Definition request_with (v : string) : Request :=
  {| Header := {[ "Accept-Language" := [v] ]}; Vars := ∅ |}.

Definition sample_context : Context := {| Context_Logger := zapLogger |}.

(** The matcher of the engine, provisioned from a configuration. *)
Definition provisioned (c : Config) : Matcher (L := engine.lib) :=
  fst (Provision (New c) sample_context).

Definition offer_de_en (full : bool) (var fallback : string) : Config :=
  {| MatchLanguages := ["de"; "en"]; FullLocale := full;
     VarLanguage := var; FallbackValue := fallback |}.

Definition offer_deDE_en (full : bool) : Config :=
  {| MatchLanguages := ["de-DE"; "en"]; FullLocale := full;
     VarLanguage := "lang"; FallbackValue := "" |}.

Definition offer_nothing : Config :=
  {| MatchLanguages := []; FullLocale := false;
     VarLanguage := ""; FallbackValue := "" |}.

(** ** Reading the configuration from a Caddyfile *)

(** The API of [caddyfile.Dispenser] (package
    [github.com/caddyserver/caddy/v2/caddyconfig/caddyfile], not part of
    the repository) that [UnmarshalFromCaddy] calls.  The dispenser is a
    cursor over the tokens of the Caddyfile; [D] is its state, and a
    method that moves the cursor returns the state after the call. *)
Module caddyfile.

Class Dispenser : Type := {
  D : Type;
  Next : D → bool * D;
  Nesting : D → Z;
  NextBlock : D → Z → bool * D;
  Val : D → string;
  RemainingArgs : D → list string * D
}.

End caddyfile.

(** [strconv.ParseBool] of the Go library: the boolean and the error. *)
Module strconv.

Class Lib : Type := {
  ParseBool : string → bool * option error
}.

End strconv.

Section Unmarshal.
Context {L : language.Lib} {Dsp : caddyfile.Dispenser} {Conv : strconv.Lib}.

(** The body of the [switch d.Val()] of [UnmarshalFromCaddy], one
    directive: the configuration and the dispenser after it, and the
    error when it returns one.  The result of [d.Next()] is not
    looked at.  A directive of another name changes nothing. *)
Definition directive (c : Config) (d : caddyfile.D)
  : Config * caddyfile.D * option error :=
  let name := caddyfile.Val d in
  if String.eqb name "match_languages" then
    let '(args, d) := caddyfile.RemainingArgs d in
    ({| MatchLanguages := MatchLanguages c ++ args;
        FullLocale := FullLocale c;
        VarLanguage := VarLanguage c;
        FallbackValue := FallbackValue c |}, d, None)
  else if String.eqb name "full_locale" then
    let '(_, d) := caddyfile.Next d in
    let val := caddyfile.Val d in
    let '(boolVal, err) := strconv.ParseBool val in
    match err with
    | Some e => (c, d, Some e)
    | None =>
      ({| MatchLanguages := MatchLanguages c;
          FullLocale := boolVal;
          VarLanguage := VarLanguage c;
          FallbackValue := FallbackValue c |}, d, None)
    end
  else if String.eqb name "var_language" then
    let '(_, d) := caddyfile.Next d in
    ({| MatchLanguages := MatchLanguages c;
        FullLocale := FullLocale c;
        VarLanguage := caddyfile.Val d;
        FallbackValue := FallbackValue c |}, d, None)
  else if String.eqb name "fallback_value" then
    let '(_, d) := caddyfile.Next d in
    ({| MatchLanguages := MatchLanguages c;
        FullLocale := FullLocale c;
        VarLanguage := VarLanguage c;
        FallbackValue := caddyfile.Val d |}, d, None)
  else (c, d, None).

(** The inner loop [for nesting := d.Nesting(); d.NextBlock(nesting); ]
    of [UnmarshalFromCaddy].  The loop runs as long as the dispenser
    says; [fuel] bounds the number of iterations and [None] is its
    exhaustion.  The configuration is updated in place, so it is
    returned with the error too. *)
Fixpoint block (fuel : nat) (nesting : Z) (c : Config) (d : caddyfile.D)
  : option (Config * caddyfile.D * option error) :=
  match fuel with
  | O => None
  | S fuel =>
    let '(more, d) := caddyfile.NextBlock d nesting in
    if more then
      let '(c, d, err) := directive c d in
      match err with
      | Some e => Some (c, d, Some e)
      | None => block fuel nesting c d
      end
    else Some (c, d, None)
  end.

(** [func (c *Config) UnmarshalFromCaddy(d *caddyfile.Dispenser) error]:
    the outer loop [for d.Next()], with the same reading of [fuel]. *)
Fixpoint UnmarshalFromCaddy (fuel : nat) (c : Config) (d : caddyfile.D)
  : option (Config * caddyfile.D * option error) :=
  match fuel with
  | O => None
  | S fuel =>
    let '(more, d) := caddyfile.Next d in
    if more then
      match block fuel (caddyfile.Nesting d) c d with
      | None => None
      | Some (c, d, Some e) => Some (c, d, Some e)
      | Some (c, d, None) => UnmarshalFromCaddy fuel c d
      end
    else Some (c, d, None)
  end.

(** [&Config{}]: the zero value. *)
Definition zero_Config : Config :=
  {| MatchLanguages := []; FullLocale := false;
     VarLanguage := ""; FallbackValue := "" |}.

(** [func (m *Matcher) UnmarshalCaddyfile(d *caddyfile.Dispenser) error]:
    the matcher and the dispenser after the call, and the error.  On an
    error the method logs through [m.logger], which panics when the
    logger is [nil]; [m.Config] is assigned on success only. *)
Definition UnmarshalCaddyfile (fuel : nat) (m : Matcher) (d : caddyfile.D)
  : option (result (Matcher * caddyfile.D * option error)) :=
  match UnmarshalFromCaddy fuel zero_Config d with
  | None => None
  | Some (cfg, d, Some err) =>
    match logger m with
    | None => Some Panic
    | Some _ => Some (Ok (m, d, Some err))
    end
  | Some (cfg, d, None) =>
    Some (Ok ({| MConfig := cfg;
                 LanguageMatcher := LanguageMatcher m;
                 logger := logger m |}, d, None))
  end.

(** [caddy.ModuleInfo], its two fields used here. *)
Record ModuleInfo : Type := {
  ID : string;
  ModuleInfo_New : unit → Matcher
}.

(** The method [CaddyModule] of the matcher, returning the
    [caddy.ModuleInfo]; [new(Matcher)] is the zero matcher. *)
Definition CaddyModule : ModuleInfo :=
  {| ID := "http.matchers.langneg";
     ModuleInfo_New := λ _, {| MConfig := zero_Config;
                               LanguageMatcher := None;
                               logger := None |} |}.

End Unmarshal.

(** ** A sample dispenser and sample tokens

    A small dispenser over a list of tokens with line numbers, in the
    manner of Caddy's, and the boolean literals of [strconv.ParseBool];
    they serve to run the unmarshaller on sample inputs. *)

Module tokens.

Record Token : Type := { Text : string; Line : nat }.

(** The token under the cursor, the tokens after it, the nesting. *)
Record state : Type := {
  current : option Token;
  rest : list Token;
  nesting : Z
}.

Definition start (ts : list Token) : state :=
  {| current := None; rest := ts; nesting := 0 |}.

Definition remaining (d : state) : nat := length (rest d).

Definition Val (d : state) : string :=
  match current d with
  | Some t => Text t
  | None => ""
  end.

Definition Next (d : state) : bool * state :=
  match rest d with
  | t :: ts => (true, {| current := Some t; rest := ts; nesting := nesting d |})
  | [] => (false, d)
  end.

Definition same_line (cur : option Token) (t : Token) : bool :=
  match cur with
  | Some c => (Line c =? Line t)%nat
  | None => true
  end.

(** The tokens that follow on the line of the cursor, up to an opening
    brace. *)
Fixpoint collect (cur : option Token) (ts : list Token)
  : list string * option Token * list Token :=
  match ts with
  | t :: ts' =>
    if same_line cur t && negb (String.eqb (Text t) "{") then
      let '(args, cur', ts'') := collect (Some t) ts' in
      (Text t :: args, cur', ts'')
    else ([], cur, ts)
  | [] => ([], cur, [])
  end.

Definition RemainingArgs (d : state) : list string * state :=
  let '(args, cur, ts) := collect (current d) (rest d) in
  (args, {| current := cur; rest := ts; nesting := nesting d |}).

Definition NextBlock (d : state) (initial : Z) : bool * state :=
  if (initial <? nesting d)%Z then
    match rest d with
    | t :: ts =>
      let n :=
        if String.eqb (Text t) "}" then (nesting d - 1)%Z
        else if String.eqb (Text t) "{" then (nesting d + 1)%Z
        else nesting d in
      ((initial <? n)%Z, {| current := Some t; rest := ts; nesting := n |})
    | [] => (false, d)
    end
  else
    match rest d with
    | t :: ts =>
      if same_line (current d) t && String.eqb (Text t) "{" then
        match ts with
        | t2 :: ts2 =>
          if String.eqb (Text t2) "}" then
            (false, {| current := Some t2; rest := ts2; nesting := nesting d |})
          else
            (true, {| current := Some t2; rest := ts2;
                      nesting := (nesting d + 1)%Z |})
        | [] =>
          (true, {| current := Some t; rest := [];
                    nesting := (nesting d + 1)%Z |})
        end
      else (false, d)
    | [] => (false, d)
    end.

#[global] Instance dispenser : caddyfile.Dispenser := {|
  caddyfile.D := state;
  caddyfile.Next := Next;
  caddyfile.Nesting := nesting;
  caddyfile.NextBlock := NextBlock;
  caddyfile.Val := Val;
  caddyfile.RemainingArgs := RemainingArgs
|}.

Definition quote : string := String (ascii_of_nat 34) EmptyString.

Definition ParseBool (str : string) : bool * option error :=
  if List.existsb (String.eqb str) ["1"; "t"; "T"; "TRUE"; "true"; "True"]
  then (true, None)
  else if List.existsb (String.eqb str)
                       ["0"; "f"; "F"; "FALSE"; "false"; "False"]
  then (false, None)
  else (false,
        Some ("strconv.ParseBool: parsing " +:+ quote +:+ str +:+ quote
              +:+ ": invalid syntax")).

#[global] Instance conv : strconv.Lib := {| strconv.ParseBool := ParseBool |}.

(** The tokens of one line. *)
Definition line (n : nat) (texts : list string) : list Token :=
  map (λ t, {| Text := t; Line := n |}) texts.

(** A matcher block with every directive and a second [match_languages]. *)
Definition block_full : list Token :=
  line 1 ["langneg"; "{"]
  ++ line 2 ["match_languages"; "de"; "en"]
  ++ line 3 ["full_locale"; "true"]
  ++ line 4 ["var_language"; "lang"]
  ++ line 5 ["fallback_value"; "Fallback"]
  ++ line 6 ["match_languages"; "fr"]
  ++ line 7 ["}"].

(** A matcher block whose [full_locale] is not a boolean. *)
Definition block_bad_bool : list Token :=
  line 1 ["langneg"; "{"]
  ++ line 2 ["match_languages"; "de"]
  ++ line 3 ["full_locale"; "maybe"]
  ++ line 4 ["var_language"; "lang"]
  ++ line 5 ["}"].

End tokens.

(** The state of the sample dispenser after [block_full] has been read,
    and the matcher that [UnmarshalCaddyfile] makes of a provisioned
    matcher on these tokens. *)
Definition block_full_read : tokens.state :=
  {| tokens.current := Some {| tokens.Text := "}"; tokens.Line := 7 |};
     tokens.rest := [];
     tokens.nesting := 0 |}.

Definition unmarshalled_full : Matcher (L := engine.lib) :=
  {| MConfig := {| MatchLanguages := ["de"; "en"; "fr"]; FullLocale := true;
                   VarLanguage := "lang"; FallbackValue := "Fallback" |};
     LanguageMatcher := LanguageMatcher (provisioned (offer_deDE_en true));
     logger := logger (provisioned (offer_deDE_en true)) |}.

(** * Properties of the gate, for every implementation of the library *)

Section GateFacts.
Context {L : language.Lib}.
Implicit Types (m : Matcher) (r : Request) (ctx : Context) (c : Config).

Lemma length_eqb_0 {A : Type} (l : list A) :
  (length l =? 0)%nat = true ↔ l = [].
Proof.
  destruct l as [|a l]; simpl; split; intros H; try done.
Qed.

Lemma String_length_ltb_0 (s : string) :
  (0 <? String.length s)%nat = true ↔ s ≠ "".
Proof.
  destruct s as [|a s]; simpl; split; intros H; try done.
Qed.

Lemma String_length_ltb_0_false (s : string) :
  (0 <? String.length s)%nat = false ↔ s = "".
Proof.
  destruct s as [|a s]; simpl; split; intros H; try done.
Qed.

(** The loop of [Provision] appends one tag per configured identifier. *)
Lemma fold_left_append {A B : Type} (f : A → B) (l : list A) (init : list B) :
  fold_left (λ acc x, acc ++ [f x]) l init = init ++ map f l.
Proof.
  revert init. induction l as [|x l IH]; intros init; simpl.
  - by rewrite app_nil_r.
  - rewrite IH. by rewrite <- app_assoc.
Qed.

Lemma Provision_MConfig m ctx : MConfig (fst (Provision m ctx)) = MConfig m.
Proof. reflexivity. Qed.

Lemma Provision_LanguageMatcher m ctx :
  LanguageMatcher (fst (Provision m ctx))
  = Some (language.NewMatcher
            (language.Und :: map language.Make (MatchLanguages (MConfig m)))).
Proof.
  unfold Provision; simpl. by rewrite fold_left_append.
Qed.

Lemma Provision_logger m ctx :
  logger (fst (Provision m ctx)) = Some (Context_Logger ctx).
Proof. reflexivity. Qed.

(** The appends of [matchLanguage] build the list of exact components. *)
Lemma appended_exact_components (t : language.Tag) b bc rg rc s sc :
  language.Tag_Base t = (b, bc) →
  language.Tag_Region t = (rg, rc) →
  language.Tag_Script t = (s, sc) →
  (let res : list string := [] in
   let res := if decide (bc = language.Exact)
              then res ++ [language.Base_String b] else res in
   let res := if decide (rc = language.Exact)
              then res ++ [language.Region_String rg] else res in
   let res := if decide (sc = language.Exact)
              then res ++ [language.Script_String s] else res in
   res) = exact_components t.
Proof.
  intros Hb Hr Hs. unfold exact_components, components.
  rewrite Hb, Hr, Hs. simpl.
  repeat case_decide; reflexivity.
Qed.

(** [matchLanguage] on a provisioned matcher, in closed form. *)
Lemma matchLanguage_provisioned m ctx r :
  matchLanguage (fst (Provision m ctx)) r
  = Ok (let t := negotiated_tag (MConfig m) r in
        if language.Tag_IsRoot t then (false, "")
        else (true, format_locale (FullLocale (MConfig m)) t)).
Proof.
  unfold matchLanguage.
  rewrite Provision_logger, Provision_LanguageMatcher, Provision_MConfig.
  unfold negotiated_tag.
  destruct (language.MatchStrings _ _) as [t idx]; simpl.
  destruct (language.Tag_IsRoot t); simpl; [reflexivity|].
  unfold format_locale.
  destruct (FullLocale (MConfig m)).
  - destruct (language.Tag_Base t) as [b bc] eqn:Hb.
    destruct (language.Tag_Region t) as [rg rc] eqn:Hr.
    destruct (language.Tag_Script t) as [s sc] eqn:Hs.
    by rewrite <- (appended_exact_components t b bc rg rc s sc Hb Hr Hs).
  - by destruct (language.Tag_Base t) as [b bc].
Qed.

(** [Match] on a provisioned matcher is [Match_outcome]. *)
Lemma Match_provisioned m ctx r :
  Match (fst (Provision m ctx)) r
  = Ok (fst (Match_outcome (MConfig m) r),
        publish (snd (Match_outcome (MConfig m) r)) r).
Proof.
  unfold Match, Match_outcome.
  rewrite Provision_MConfig.
  destruct (length (MatchLanguages (MConfig m)) =? 0)%nat eqn:Hlen.
  - apply length_eqb_0 in Hlen. by rewrite decide_True.
  - rewrite decide_False; [|intros Heq; apply length_eqb_0 in Heq; congruence].
    rewrite matchLanguage_provisioned. simpl.
    destruct (language.Tag_IsRoot _); simpl.
    + destruct (0 <? String.length (VarLanguage (MConfig m)))%nat eqn:Hv.
      * apply String_length_ltb_0 in Hv. rewrite (decide_False _ _ Hv).
        destruct (0 <? String.length (FallbackValue (MConfig m)))%nat eqn:Hf.
        -- apply String_length_ltb_0 in Hf. by rewrite (decide_False _ _ Hf).
        -- apply String_length_ltb_0_false in Hf. by rewrite (decide_True _ _ Hf).
      * apply String_length_ltb_0_false in Hv. rewrite (decide_True _ _ Hv).
        by rewrite andb_false_r.
    + destruct (0 <? String.length (VarLanguage (MConfig m)))%nat eqn:Hv.
      * apply String_length_ltb_0 in Hv. by rewrite (decide_False _ _ Hv).
      * apply String_length_ltb_0_false in Hv. rewrite (decide_True _ _ Hv).
        by rewrite andb_false_r.
Qed.

(** C2: if the configured list of offered languages is empty, [Match]
    returns true and leaves the request as it is, whatever the
    [Accept-Language] header holds (and whether or not the matcher has
    been provisioned). *)
Theorem Match_no_offered_languages m r :
  MatchLanguages (MConfig m) = [] → Match m r = Ok (true, r).
Proof.
  intros Hnil. unfold Match. by rewrite Hnil.
Qed.

(** C3: [Validate] returns an error exactly when a variable name is set
    while no language is offered; with at least one offered language it
    returns no error. *)
Theorem Validate_error_iff m :
  (is_Some (Validate m)
   ↔ VarLanguage (MConfig m) ≠ "" ∧ MatchLanguages (MConfig m) = [])
  ∧ (MatchLanguages (MConfig m) ≠ [] → Validate m = None).
Proof.
  unfold Validate.
  destruct (MatchLanguages (MConfig m)) as [|l ls]; simpl.
  - destruct (VarLanguage (MConfig m)) as [|a s]; simpl.
    + split; [|done]. split.
      * intros [e He]. discriminate.
      * intros [Hne _]. by destruct Hne.
    + split; [|done]. split; [done|]. intros _. eexists. reflexivity.
  - split; [|done]. split.
    + intros [e He]. discriminate.
    + intros [_ Hnil]. discriminate.
Qed.

(** C4: on a provisioned matcher [matchLanguage] returns, it reports a
    match if and only if the tag selected by the library is not Root, and
    when it reports no match the resolved value is the empty string. *)
Theorem matchLanguage_match_iff_not_root m ctx r :
  ∃ matched value,
    matchLanguage (fst (Provision m ctx)) r = Ok (matched, value)
    ∧ (matched = true
       ↔ language.Tag_IsRoot (negotiated_tag (MConfig m) r) = false)
    ∧ (matched = false → value = "").
Proof.
  rewrite matchLanguage_provisioned. simpl.
  destruct (language.Tag_IsRoot (negotiated_tag (MConfig m) r)).
  - exists false, "". split; [reflexivity|]. split; [split; discriminate|done].
  - eexists true, _. split; [reflexivity|]. split; [done|discriminate].
Qed.

(** C6: when the selected tag is not Root and [FullLocale] is set,
    [matchLanguage] reports a match whose value is the hyphen-join of the
    strings of exactly those components of the selected tag whose
    confidence is [Exact], in the order language, region, script. *)
Theorem matchLanguage_full_locale m ctx r :
  language.Tag_IsRoot (negotiated_tag (MConfig m) r) = false →
  FullLocale (MConfig m) = true →
  matchLanguage (fst (Provision m ctx)) r
  = Ok (true, Join (exact_components (negotiated_tag (MConfig m) r)) "-").
Proof.
  intros Hroot Hfull.
  rewrite matchLanguage_provisioned. simpl.
  rewrite Hroot. unfold format_locale. by rewrite Hfull.
Qed.

(** C1: when languages are offered, the library selects Root (no match)
    and a fallback value is configured, [Match] returns true and
    publishes the fallback value verbatim only if a variable name is
    configured as well; with no variable name it returns false and
    leaves the request as it is. *)
Theorem Match_no_match_with_fallback m ctx r :
  MatchLanguages (MConfig m) ≠ [] →
  language.Tag_IsRoot (negotiated_tag (MConfig m) r) = true →
  FallbackValue (MConfig m) ≠ "" →
  Match (fst (Provision m ctx)) r
  = Ok (if decide (VarLanguage (MConfig m) = "") then (false, r)
        else (true, SetVar r ("langneg_" +:+ VarLanguage (MConfig m))
                           (FallbackValue (MConfig m)))).
Proof.
  intros Hoffered Hroot Hfallback.
  rewrite Match_provisioned. unfold Match_outcome.
  rewrite (decide_False _ _ Hoffered), Hroot.
  case_decide; [reflexivity|].
  by rewrite (decide_False _ _ Hfallback).
Qed.

(** C8: two calls of [Match], on matchers provisioned from the same
    configuration and on requests with the same [Accept-Language] value,
    return the same boolean and publish the same variable with the same
    value (or both publish nothing). *)
Theorem Match_deterministic m1 m2 ctx1 ctx2 r1 r2 :
  MConfig m1 = MConfig m2 →
  Header_Get (Header r1) "Accept-Language"
  = Header_Get (Header r2) "Accept-Language" →
  ∃ matched w,
    Match (fst (Provision m1 ctx1)) r1 = Ok (matched, publish w r1)
    ∧ Match (fst (Provision m2 ctx2)) r2 = Ok (matched, publish w r2).
Proof.
  intros Hc Hh.
  exists (fst (Match_outcome (MConfig m1) r1)), (snd (Match_outcome (MConfig m1) r1)).
  split; [apply Match_provisioned|].
  rewrite Match_provisioned, <- Hc.
  assert (Match_outcome (MConfig m1) r2 = Match_outcome (MConfig m1) r1) as ->;
    [|reflexivity].
  unfold Match_outcome, negotiated_tag. by rewrite Hh.
Qed.

(** C10: on a provisioned matcher [Match] returns and changes at most
    the variable [langneg_<VarLanguage>] of the request; the request is
    unchanged when no variable name is configured, and when the library
    selects Root with no fallback value configured; so a changed request
    implies a configured variable name. *)
Theorem Match_frame m ctx r :
  ∃ matched r',
    Match (fst (Provision m ctx)) r = Ok (matched, r')
    ∧ Header r' = Header r
    ∧ (∀ k, k ≠ "langneg_" +:+ VarLanguage (MConfig m) →
            Vars r' !! k = Vars r !! k)
    ∧ (VarLanguage (MConfig m) = "" → r' = r)
    ∧ (language.Tag_IsRoot (negotiated_tag (MConfig m) r) = true →
       FallbackValue (MConfig m) = "" → r' = r)
    ∧ (r' ≠ r → VarLanguage (MConfig m) ≠ "").
Proof.
  eexists _, _. split; [apply Match_provisioned|].
  unfold Match_outcome.
  destruct (decide (MatchLanguages (MConfig m) = [])) as [Hnil|Hoffered];
    simpl; [done|].
  destruct (language.Tag_IsRoot (negotiated_tag (MConfig m) r)) eqn:Hroot;
    destruct (decide (VarLanguage (MConfig m) = "")) as [Hvar|Hvar];
    simpl; try done;
    try (destruct (decide (FallbackValue (MConfig m) = "")) as [Hfb|Hfb];
         simpl; try done).
  all: split; [reflexivity|].
  all: split; [intros k Hk; by rewrite lookup_insert_ne|].
  all: repeat split; try done.
Qed.

End GateFacts.

(** * Properties of the gate over the engine of the specification *)

Section EngineFacts.
Implicit Types (m : Matcher (L := engine.lib)) (r : Request) (ctx : Context).

(** No piece of a split contains the separator. *)
Lemma split_pieces (sep : ascii) (s : string) :
  Forall (λ p, engine.contains sep p = false) (engine.split sep s).
Proof.
  induction s as [|c s IH]; simpl.
  - by repeat constructor.
  - destruct (Ascii.eqb c sep) eqn:Hc.
    + by constructor.
    + destruct (engine.split sep s) as [|p ps].
      * constructor; [|constructor]. simpl. by rewrite Hc.
      * inversion IH as [|? ? Hp Hps]; subst.
        constructor; [|assumption]. simpl. by rewrite Hc.
Qed.

(** The language component of a parsed tag is a piece of the split at
    the hyphens, or absent. *)
Lemma parse_tag_language (s : string) :
  engine.contains "-"
    (engine.component_string (engine.tag_language (engine.parse_tag s)))
  = false.
Proof.
  unfold engine.parse_tag.
  destruct (String.eqb s "*" || String.eqb s "*-*"); [reflexivity|].
  pose proof (split_pieces "-" s) as Hpieces.
  destruct (engine.split "-" s) as [|l rest]; [reflexivity|].
  destruct (engine.is_language_subtag l); [|reflexivity].
  inversion Hpieces as [|? ? Hl _]; subst.
  destruct rest as [|x rest']; simpl; [exact Hl|].
  destruct (engine.is_script_subtag x); simpl; exact Hl.
Qed.

(** The selection keeps the current candidate or takes an offered tag. *)
Lemma best_tag ranges offered :
  ∀ i cur,
    fst (fst (engine.best ranges offered i cur)) = fst (fst cur)
    ∨ In (fst (fst (engine.best ranges offered i cur))) offered.
Proof.
  induction offered as [|o os IH]; intros i cur; simpl.
  - by left.
  - destruct (IH (i + 1)%Z
               (if engine.Qlt_b (snd cur) (engine.confidence ranges o)
                then (o, i, engine.confidence ranges o) else cur))
      as [Hcur|Hin].
    + destruct (engine.Qlt_b (snd cur) (engine.confidence ranges o));
        simpl in Hcur; rewrite Hcur; auto.
    + auto.
Qed.

Lemma select_tag ranges offered :
  fst (engine.select ranges offered) = engine.Root
  ∨ In (fst (engine.select ranges offered)) offered.
Proof.
  unfold engine.select.
  pose proof (best_tag ranges offered 0%Z (engine.Root, 0%Z, 0%Q)) as Hbest.
  destruct (engine.best ranges offered 0%Z (engine.Root, 0%Z, 0%Q))
    as [[t i] c]; simpl in Hbest.
  destruct (engine.Qlt_b 0 c); simpl; auto.
Qed.

(** Whatever the engine selects, its language component has no hyphen,
    when the offered tags are Root and parsed identifiers. *)
Lemma negotiated_language_no_hyphen (c : Config) r :
  engine.contains "-"
    (language.Base_String (fst (language.Tag_Base (negotiated_tag c r))))
  = false.
Proof.
  unfold negotiated_tag. simpl. unfold engine.match_header.
  destruct (select_tag
              (engine.prepare_ranges
                 (engine.parse_ranges (Header_Get (Header r) "Accept-Language")))
              (engine.Root :: map engine.parse_tag (MatchLanguages c)))
    as [Hroot|[Hroot|Hin]].
  - by rewrite Hroot.
  - by rewrite <- Hroot.
  - apply in_map_iff in Hin as [id [Hid _]]. rewrite <- Hid.
    apply parse_tag_language.
Qed.

Lemma parse_tag_unparseable (id : string) :
  engine.language_subtag id = None → engine.parse_tag id = engine.Root.
Proof.
  unfold engine.language_subtag, engine.parse_tag. intros Hnone.
  destruct (String.eqb id "*" || String.eqb id "*-*"); [reflexivity|].
  destruct (engine.split "-" id) as [|l rest]; [reflexivity|].
  destruct (engine.is_language_subtag l); [discriminate|reflexivity].
Qed.

(** The scenarios of section 8 of the specification, run through the
    gate over the engine. *)
Example scenario_no_match_no_fallback :
  Match (provisioned (offer_de_en false "lang" "")) (request_with "fr-FR")
  = Ok (false, request_with "fr-FR").
Proof. reflexivity. Qed.

Example scenario_no_match_fallback :
  Match (provisioned (offer_de_en false "lang" "Fallback")) (request_with "fr-FR")
  = Ok (true, SetVar (request_with "fr-FR") "langneg_lang" "Fallback").
Proof. reflexivity. Qed.

Example scenario_en :
  matchLanguage (provisioned (offer_de_en false "lang" "")) (request_with "en")
  = Ok (true, "en").
Proof. reflexivity. Qed.

Example scenario_region_degrades :
  matchLanguage
    (provisioned {| MatchLanguages := ["en-US"]; FullLocale := true;
                    VarLanguage := "lang"; FallbackValue := "" |})
    (request_with "en-AU")
  = Ok (true, "en-US").
Proof. reflexivity. Qed.

Example scenario_no_header :
  matchLanguage (provisioned (offer_de_en false "lang" ""))
                {| Header := ∅; Vars := ∅ |}
  = Ok (false, "").
Proof. reflexivity. Qed.

Example scenario_bad_weight_dropped :
  matchLanguage (provisioned (offer_de_en false "lang" ""))
                (request_with "de;q=1.5, en;q=0.3")
  = Ok (true, "en")
  ∧ matchLanguage (provisioned (offer_de_en false "lang" ""))
                  (request_with "de;q=x, en;q=0.6")
    = Ok (true, "en").
Proof. split; reflexivity. Qed.

(** C5: when the selected tag is not Root and [FullLocale] is not set,
    [matchLanguage] reports a match whose value is the string of the
    language (base) component of the selected tag, for every
    implementation of the library; over the engine this string
    contains no hyphen. *)
Theorem matchLanguage_language_only :
  (∀ (L : language.Lib) (m : Matcher) (ctx : Context) (r : Request),
     language.Tag_IsRoot (negotiated_tag (MConfig m) r) = false →
     FullLocale (MConfig m) = false →
     matchLanguage (fst (Provision m ctx)) r
     = Ok (true,
           language.Base_String
             (fst (language.Tag_Base (negotiated_tag (MConfig m) r)))))
  ∧ (∀ (c : Config) (r : Request),
       engine.contains "-"
         (language.Base_String (Lib := engine.lib)
            (fst (language.Tag_Base (negotiated_tag c r))))
       = false).
Proof.
  split.
  - intros L m ctx r Hroot Hfull.
    rewrite matchLanguage_provisioned. cbv zeta.
    rewrite Hroot. unfold format_locale. by rewrite Hfull.
  - apply negotiated_language_no_hyphen.
Qed.

(** C7: over the engine, with the offered languages de and en and the
    header value [en;q=0.4, de;q=0.8]: the header lists en (quality
    4/10) before de (quality 8/10), the confidence of de is 8/10 and that
    of en 4/10, [matchLanguage] reports a match with the value de, and
    [Match] returns true and publishes de when a variable name is
    configured. *)
Theorem Match_higher_quality_wins m ctx r :
  MatchLanguages (MConfig m) = ["de"; "en"] →
  Header_Get (Header r) "Accept-Language" = "en;q=0.4, de;q=0.8" →
  engine.parse_ranges "en;q=0.4, de;q=0.8"
  = [ {| engine.range_tag := "en"; engine.quality := 4 # 10 |};
      {| engine.range_tag := "de"; engine.quality := 8 # 10 |} ]
  ∧ engine.confidence
      (engine.prepare_ranges (engine.parse_ranges "en;q=0.4, de;q=0.8"))
      (engine.parse_tag "de") = (8 # 10)%Q
  ∧ engine.confidence
      (engine.prepare_ranges (engine.parse_ranges "en;q=0.4, de;q=0.8"))
      (engine.parse_tag "en") = (4 # 10)%Q
  ∧ matchLanguage (fst (Provision m ctx)) r = Ok (true, "de")
  ∧ Match (fst (Provision m ctx)) r
    = Ok (true,
          if decide (VarLanguage (MConfig m) = "") then r
          else SetVar r ("langneg_" +:+ VarLanguage (MConfig m)) "de").
Proof.
  intros Hoffered Hheader.
  assert (negotiated_tag (MConfig m) r = engine.parse_tag "de") as Htag.
  { unfold negotiated_tag. rewrite Hoffered, Hheader. by vm_compute. }
  assert (format_locale (FullLocale (MConfig m)) (engine.parse_tag "de") = "de")
    as Hfmt by (by destruct (FullLocale (MConfig m)); vm_compute).
  split; [by vm_compute|]. split; [by vm_compute|]. split; [by vm_compute|].
  split.
  - rewrite matchLanguage_provisioned. cbv zeta. rewrite Htag, Hfmt. reflexivity.
  - rewrite Match_provisioned. unfold Match_outcome.
    rewrite Htag, Hfmt, Hoffered.
    rewrite decide_False by discriminate.
    change (language.Tag_IsRoot (Lib := engine.lib) (engine.parse_tag "de"))
      with false.
    by case_decide.
Qed.

End EngineFacts.

(** C9: [Provision] returns no error, for every configuration and every
    implementation of the library: each configured identifier goes
    through [language.Make], which returns a tag and no error, and the
    matcher is built over Root followed by these tags.  In the tag model
    of the specification an identifier without a language subtag is
    made into Root. *)
Theorem Provision_never_fails :
  (∀ (L : language.Lib) (m : Matcher) (ctx : Context),
     snd (Provision m ctx) = None
     ∧ MConfig (fst (Provision m ctx)) = MConfig m
     ∧ LanguageMatcher (fst (Provision m ctx))
       = Some (language.NewMatcher
                 (language.Und
                  :: map language.Make (MatchLanguages (MConfig m)))))
  ∧ (∀ id : string,
       engine.language_subtag id = None →
       language.Make (Lib := engine.lib) id = language.Und
       ∧ language.Tag_IsRoot (language.Make (Lib := engine.lib) id) = true).
Proof.
  split.
  - intros L m ctx. split; [reflexivity|]. split; [reflexivity|].
    apply Provision_LanguageMatcher.
  - intros id Hnone. simpl. by rewrite (parse_tag_unparseable id Hnone).
Qed.

(** * The statements at sample inputs, over the engine *)

Lemma Match_no_offered_languages_witness :
  MatchLanguages (MConfig (provisioned offer_nothing)) = []
  ∧ Match (provisioned offer_nothing) (request_with "fr-FR")
    = Ok (true, request_with "fr-FR").
Proof.
  split; [reflexivity|].
  apply (Match_no_offered_languages (L := engine.lib)). reflexivity.
Defined.

Lemma matchLanguage_full_locale_witness :
  language.Tag_IsRoot
    (negotiated_tag (offer_deDE_en true) (request_with "de-DE")) = false
  ∧ FullLocale (offer_deDE_en true) = true
  ∧ matchLanguage (provisioned (offer_deDE_en true)) (request_with "de-DE")
    = Ok (true,
          Join (exact_components
                  (negotiated_tag (offer_deDE_en true) (request_with "de-DE")))
               "-")
  ∧ Join (exact_components
            (negotiated_tag (offer_deDE_en true) (request_with "de-DE"))) "-"
    = "de-DE".
Proof.
  split; [reflexivity|]. split; [reflexivity|]. split; [|reflexivity].
  apply (matchLanguage_full_locale (L := engine.lib)
           (New (offer_deDE_en true)) sample_context (request_with "de-DE"));
    reflexivity.
Defined.

Lemma Match_no_match_with_fallback_witness :
  MatchLanguages (offer_de_en false "" "Fallback") ≠ []
  ∧ language.Tag_IsRoot
      (negotiated_tag (offer_de_en false "" "Fallback") (request_with "fr-FR"))
    = true
  ∧ FallbackValue (offer_de_en false "" "Fallback") ≠ ""
  ∧ Match (provisioned (offer_de_en false "" "Fallback")) (request_with "fr-FR")
    = Ok (false, request_with "fr-FR").
Proof.
  split; [discriminate|]. split; [reflexivity|]. split; [discriminate|].
  apply (Match_no_match_with_fallback (L := engine.lib)
           (New (offer_de_en false "" "Fallback")) sample_context
           (request_with "fr-FR"));
    [discriminate | reflexivity | discriminate].
Defined.

Lemma Match_deterministic_witness :
  ∃ matched w,
    Match (provisioned (offer_de_en false "lang" "")) (request_with "en")
    = Ok (matched, publish w (request_with "en"))
    ∧ Match (provisioned (offer_de_en false "lang" ""))
            (SetVar (request_with "en") "langneg_lang" "en")
      = Ok (matched,
            publish w (SetVar (request_with "en") "langneg_lang" "en")).
Proof.
  apply (Match_deterministic (L := engine.lib)
           (New (offer_de_en false "lang" ""))
           (New (offer_de_en false "lang" ""))
           sample_context sample_context);
    reflexivity.
Defined.

Lemma matchLanguage_language_only_witness :
  language.Tag_IsRoot
    (negotiated_tag (offer_de_en false "lang" "") (request_with "en-US"))
  = false
  ∧ FullLocale (offer_de_en false "lang" "") = false
  ∧ matchLanguage (provisioned (offer_de_en false "lang" ""))
                  (request_with "en-US")
    = Ok (true, "en")
  ∧ engine.contains "-" "en" = false.
Proof.
  split; [reflexivity|]. split; [reflexivity|].
  destruct matchLanguage_language_only as [Hvalue Hhyphen].
  split.
  - apply (Hvalue engine.lib (New (offer_de_en false "lang" ""))
                  sample_context (request_with "en-US"));
      reflexivity.
  - apply (Hhyphen (offer_de_en false "lang" "") (request_with "en-US")).
Defined.

Lemma Match_higher_quality_wins_witness :
  MatchLanguages (offer_de_en false "lang" "") = ["de"; "en"]
  ∧ Header_Get (Header (request_with "en;q=0.4, de;q=0.8")) "Accept-Language"
    = "en;q=0.4, de;q=0.8"
  ∧ matchLanguage (provisioned (offer_de_en false "lang" ""))
                  (request_with "en;q=0.4, de;q=0.8")
    = Ok (true, "de")
  ∧ Match (provisioned (offer_de_en false "lang" ""))
          (request_with "en;q=0.4, de;q=0.8")
    = Ok (true,
          SetVar (request_with "en;q=0.4, de;q=0.8") "langneg_lang" "de").
Proof.
  split; [reflexivity|]. split; [reflexivity|].
  exact (proj2 (proj2 (proj2
           (Match_higher_quality_wins
              (New (offer_de_en false "lang" "")) sample_context
              (request_with "en;q=0.4, de;q=0.8") eq_refl eq_refl)))).
Defined.

(** * Further properties of the gate, for every implementation of the library *)

Section GateMore.
Context {L : language.Lib}.
Implicit Types (m : Matcher) (r : Request) (ctx : Context) (c : Config).

(** With a logger and a language matcher, [matchLanguage] returns. *)
Lemma matchLanguage_returns m r lg lm :
  logger m = Some lg → LanguageMatcher m = Some lm →
  ∃ matched value, matchLanguage m r = Ok (matched, value).
Proof.
  intros Hlg Hlm. unfold matchLanguage. rewrite Hlg, Hlm.
  destruct (language.MatchStrings _ _) as [t idx].
  destruct (negb (language.Tag_IsRoot t)); [|by eauto].
  destruct (FullLocale (MConfig m)).
  - destruct (language.Tag_Base t), (language.Tag_Region t),
      (language.Tag_Script t). by eauto.
  - destruct (language.Tag_Base t). by eauto.
Qed.

(** The key of the variable that [Match] writes. *)
Lemma Match_outcome_key c r k v :
  snd (Match_outcome c r) = Some (k, v) → k = "langneg_" +:+ VarLanguage c.
Proof.
  unfold Match_outcome.
  repeat (case_decide || destruct (language.Tag_IsRoot _)); simpl;
    intros Heq; by simplify_eq.
Qed.

(** [Match_outcome] reads the request through its header only. *)
Lemma Match_outcome_publish c r w :
  Match_outcome c (publish w r) = Match_outcome c r.
Proof.
  unfold Match_outcome, negotiated_tag.
  by destruct w as [[k v]|].
Qed.

Lemma publish_twice w r : publish w (publish w r) = publish w r.
Proof.
  destruct w as [[k v]|]; [|reflexivity].
  unfold publish, SetVar; simpl. f_equal. apply insert_insert_eq.
Qed.

Lemma langneg_key_inj (a b : string) :
  "langneg_" +:+ a = "langneg_" +:+ b → a = b.
Proof. simpl. intros Heq. by simplify_eq. Qed.

(** X1: [Match] panics exactly when languages are offered and the
    matcher has no logger or no language matcher (it has not been
    provisioned); in every other case it returns. *)
Theorem Match_panics_iff m r :
  Match m r = Panic
  ↔ MatchLanguages (MConfig m) ≠ []
    ∧ (logger m = None ∨ LanguageMatcher m = None).
Proof.
  unfold Match.
  destruct (length (MatchLanguages (MConfig m)) =? 0)%nat eqn:Hlen.
  - apply length_eqb_0 in Hlen. split; [discriminate|]. by intros [Hne _].
  - assert (MatchLanguages (MConfig m) ≠ []) as Hne
      by (intros Heq; apply length_eqb_0 in Heq; congruence).
    destruct (logger m) as [lg|] eqn:Hlg; cycle 1.
    { unfold matchLanguage. rewrite Hlg. simpl. split; auto. }
    destruct (LanguageMatcher m) as [lm|] eqn:Hlm; cycle 1.
    { unfold matchLanguage. rewrite Hlg, Hlm. simpl. split; auto. }
    destruct (matchLanguage_returns m r lg lm Hlg Hlm) as (b & v & ->).
    simpl. split.
    + repeat (destruct (_ && _)); discriminate.
    + intros [_ [?|?]]; discriminate.
Qed.

(** X2: on a provisioned matcher, [Match] returns false (and then
    leaves the request as it is) exactly when languages are offered, the
    library selects Root, and the variable name or the fallback value is
    empty; in every other case it returns true. *)
Theorem Match_false_iff m ctx r :
  (Match (fst (Provision m ctx)) r = Ok (false, r)
   ↔ MatchLanguages (MConfig m) ≠ []
     ∧ language.Tag_IsRoot (negotiated_tag (MConfig m) r) = true
     ∧ (VarLanguage (MConfig m) = "" ∨ FallbackValue (MConfig m) = ""))
  ∧ (Match (fst (Provision m ctx)) r = Ok (false, r)
     ∨ ∃ r', Match (fst (Provision m ctx)) r = Ok (true, r')).
Proof.
  rewrite Match_provisioned. unfold Match_outcome.
  destruct (decide (MatchLanguages (MConfig m) = [])) as [Hnil|Hoffered]; simpl.
  { split; [|by eauto]. split; [discriminate|]. by intros [Hne _]. }
  destruct (language.Tag_IsRoot (negotiated_tag (MConfig m) r)); simpl.
  - destruct (decide (VarLanguage (MConfig m) = "")) as [Hvar|Hvar]; simpl.
    { split; [|by left]. split; auto. }
    destruct (decide (FallbackValue (MConfig m) = "")) as [Hfb|Hfb]; simpl.
    { split; [|by left]. split; auto. }
    split; [|by eauto]. split; [discriminate|].
    intros (_ & _ & [?|?]); done.
  - split.
    + split; [|by intros (_ & ? & _)].
      case_decide; discriminate.
    + right. case_decide; by eauto.
Qed.

(** X3: when languages are offered, the library selects a tag other
    than Root and a variable name is configured, [Match] returns true
    and the variable [langneg_<VarLanguage>] then holds the formatted
    locale of the selected tag, never the fallback value. *)
Theorem Match_publishes_locale m ctx r :
  MatchLanguages (MConfig m) ≠ [] →
  language.Tag_IsRoot (negotiated_tag (MConfig m) r) = false →
  VarLanguage (MConfig m) ≠ "" →
  ∃ r',
    Match (fst (Provision m ctx)) r = Ok (true, r')
    ∧ Vars r' !! ("langneg_" +:+ VarLanguage (MConfig m))
      = Some (format_locale (FullLocale (MConfig m))
                            (negotiated_tag (MConfig m) r)).
Proof.
  intros Hoffered Hroot Hvar.
  rewrite Match_provisioned. unfold Match_outcome.
  rewrite (decide_False _ _ Hoffered), Hroot, (decide_False _ _ Hvar). simpl.
  eexists. split; [reflexivity|]. simpl. apply lookup_insert_eq.
Qed.

(** X4: for a configuration that [Validate] accepts and that has a
    variable name and a fallback value, every [Match] on the provisioned
    matcher returns true and leaves the variable holding the fallback
    value when the library selects Root and the formatted locale
    otherwise. *)
Theorem Match_always_defines_variable m ctx r :
  Validate m = None →
  VarLanguage (MConfig m) ≠ "" →
  FallbackValue (MConfig m) ≠ "" →
  ∃ r',
    Match (fst (Provision m ctx)) r = Ok (true, r')
    ∧ Vars r' !! ("langneg_" +:+ VarLanguage (MConfig m))
      = Some (if language.Tag_IsRoot (negotiated_tag (MConfig m) r)
              then FallbackValue (MConfig m)
              else format_locale (FullLocale (MConfig m))
                                 (negotiated_tag (MConfig m) r)).
Proof.
  intros Hvalid Hvar Hfb.
  assert (MatchLanguages (MConfig m) ≠ []) as Hoffered.
  { intros Hnil. unfold Validate in Hvalid. rewrite Hnil in Hvalid.
    apply String_length_ltb_0 in Hvar. simpl in Hvalid.
    by rewrite Hvar in Hvalid. }
  rewrite Match_provisioned. unfold Match_outcome.
  rewrite (decide_False _ _ Hoffered).
  destruct (decide (VarLanguage (MConfig m) = "")) as [?|_]; [done|].
  destruct (language.Tag_IsRoot (negotiated_tag (MConfig m) r)); simpl.
  - rewrite (decide_False _ _ Hfb). simpl.
    eexists. split; [reflexivity|]. simpl. apply lookup_insert_eq.
  - eexists. split; [reflexivity|]. simpl. apply lookup_insert_eq.
Qed.

(** X5: running [Match] a second time, on the request as the first run
    left it, returns the same boolean and changes nothing further. *)
Theorem Match_twice m ctx r :
  ∃ matched r',
    Match (fst (Provision m ctx)) r = Ok (matched, r')
    ∧ Match (fst (Provision m ctx)) r' = Ok (matched, r').
Proof.
  eexists _, _. split; [apply Match_provisioned|].
  rewrite Match_provisioned, Match_outcome_publish.
  by rewrite publish_twice.
Qed.

(** X6: two provisioned matchers with different variable names can run
    in either order on a request: each returns the same boolean in both
    orders and the request ends up the same. *)
Theorem Match_commute m1 m2 ctx1 ctx2 r :
  VarLanguage (MConfig m1) ≠ VarLanguage (MConfig m2) →
  ∃ b1 b2 r1 r2 r12,
    Match (fst (Provision m1 ctx1)) r = Ok (b1, r1)
    ∧ Match (fst (Provision m2 ctx2)) r1 = Ok (b2, r12)
    ∧ Match (fst (Provision m2 ctx2)) r = Ok (b2, r2)
    ∧ Match (fst (Provision m1 ctx1)) r2 = Ok (b1, r12).
Proof.
  intros Hvars.
  eexists _, _, _, _, _.
  split; [apply Match_provisioned|].
  split; [rewrite Match_provisioned, Match_outcome_publish; reflexivity|].
  split; [apply Match_provisioned|].
  rewrite Match_provisioned, Match_outcome_publish.
  do 2 f_equal.
  destruct (snd (Match_outcome (MConfig m1) r)) as [[k1 v1]|] eqn:Hw1;
    destruct (snd (Match_outcome (MConfig m2) r)) as [[k2 v2]|] eqn:Hw2;
    try reflexivity.
  apply Match_outcome_key in Hw1, Hw2. subst k1 k2.
  unfold publish, SetVar; simpl. f_equal.
  apply insert_insert_ne.
  intros Heq. by apply langneg_key_inj in Heq.
Qed.

End GateMore.

(** * Properties of the unmarshaller, for every dispenser *)

Section UnmarshalFacts.
Context {L : language.Lib} {Dsp : caddyfile.Dispenser} {Conv : strconv.Lib}.
Implicit Types (c : Config) (d : caddyfile.D) (m : Matcher).

(** One directive keeps the offered languages and may append to them;
    its only error is an error of [ParseBool]. *)
Lemma directive_spec c d c' d' e :
  directive c d = (c', d', e) →
  MatchLanguages c `prefix_of` MatchLanguages c'
  ∧ (∀ err, e = Some err → ∃ v, snd (strconv.ParseBool v) = Some err).
Proof.
  unfold directive.
  destruct (String.eqb (caddyfile.Val d) "match_languages").
  { destruct (caddyfile.RemainingArgs d) as [args d1].
    intros Heq; simplify_eq; simpl.
    split; [by apply prefix_app_r|]. intros err Herr. discriminate. }
  destruct (String.eqb (caddyfile.Val d) "full_locale").
  { destruct (caddyfile.Next d) as [more d1].
    destruct (strconv.ParseBool (caddyfile.Val d1)) as [boolVal [err1|]] eqn:Hp;
      intros Heq; simplify_eq; simpl.
    - split; [done|]. intros err Herr. simplify_eq.
      exists (caddyfile.Val d'). by rewrite Hp.
    - split; [done|]. intros err Herr. discriminate. }
  destruct (String.eqb (caddyfile.Val d) "var_language").
  { destruct (caddyfile.Next d) as [more d1].
    intros Heq; simplify_eq; simpl. split; [done|]. intros err Herr. discriminate. }
  destruct (String.eqb (caddyfile.Val d) "fallback_value").
  { destruct (caddyfile.Next d) as [more d1].
    intros Heq; simplify_eq; simpl. split; [done|]. intros err Herr. discriminate. }
  intros Heq; simplify_eq. split; [done|]. intros err Herr. discriminate.
Qed.

Lemma block_spec fuel nesting c d c' d' e :
  block fuel nesting c d = Some (c', d', e) →
  MatchLanguages c `prefix_of` MatchLanguages c'
  ∧ (∀ err, e = Some err → ∃ v, snd (strconv.ParseBool v) = Some err).
Proof.
  revert c d. induction fuel as [|fuel IH]; intros c d; simpl; [discriminate|].
  destruct (caddyfile.NextBlock d nesting) as [[|] d1].
  - destruct (directive c d1) as [[c2 d2] [err2|]] eqn:Hdir;
      apply directive_spec in Hdir as [Hpre Herr].
    + intros Heq; simplify_eq. split; [done|]. by apply Herr.
    + intros Heq. apply IH in Heq as [Hpre' Herr'].
      split; [by etrans|done].
  - intros Heq; simplify_eq. split; [done|]. intros err Herr. discriminate.
Qed.

(** X7: [UnmarshalFromCaddy] never removes or reorders offered
    languages: the list it leaves starts with the list it found, whatever
    the dispenser yields (also when it returns an error). *)
Theorem UnmarshalFromCaddy_appends fuel c d c' d' e :
  UnmarshalFromCaddy fuel c d = Some (c', d', e) →
  MatchLanguages c `prefix_of` MatchLanguages c'.
Proof.
  revert c d. induction fuel as [|fuel IH]; intros c d; simpl; [discriminate|].
  destruct (caddyfile.Next d) as [[|] d1].
  - destruct (block fuel (caddyfile.Nesting d1) c d1)
      as [[[c2 d2] [err2|]]|] eqn:Hblock; [| |discriminate];
      apply block_spec in Hblock as [Hpre _].
    + intros Heq; by simplify_eq.
    + intros Heq. apply IH in Heq. by etrans.
  - intros Heq; by simplify_eq.
Qed.

(** X8: every error that [UnmarshalFromCaddy] returns is an error that
    [strconv.ParseBool] returns on some string: only a [full_locale]
    value can make unmarshalling fail. *)
Theorem UnmarshalFromCaddy_error fuel c d c' d' err :
  UnmarshalFromCaddy fuel c d = Some (c', d', Some err) →
  ∃ v, snd (strconv.ParseBool v) = Some err.
Proof.
  revert c d. induction fuel as [|fuel IH]; intros c d; simpl; [discriminate|].
  destruct (caddyfile.Next d) as [[|] d1]; [|discriminate].
  destruct (block fuel (caddyfile.Nesting d1) c d1)
    as [[[c2 d2] [err2|]]|] eqn:Hblock; [| |discriminate].
  - apply block_spec in Hblock as [_ Herr].
    intros Heq; simplify_eq. by apply Herr.
  - apply IH.
Qed.

(** X9: on a matcher without a logger, [UnmarshalCaddyfile] panics
    exactly when [UnmarshalFromCaddy] returns an error, and so it never
    returns an error itself. *)
Theorem UnmarshalCaddyfile_without_logger fuel m d :
  logger m = None →
  (UnmarshalCaddyfile fuel m d = Some Panic
   ↔ ∃ cfg d' err,
       UnmarshalFromCaddy fuel zero_Config d = Some (cfg, d', Some err))
  ∧ (∀ m' d' e,
       UnmarshalCaddyfile fuel m d = Some (Ok (m', d', e)) → e = None).
Proof.
  intros Hlogger. unfold UnmarshalCaddyfile. rewrite Hlogger.
  destruct (UnmarshalFromCaddy fuel zero_Config d)
    as [[[cfg d1] [err|]]|].
  - split; [|discriminate]. split; [by eauto|done].
  - split.
    + split; [discriminate|]. intros (? & ? & ? & Heq). discriminate.
    + intros m' d' e Heq. by simplify_eq.
  - split; [|discriminate].
    split; [discriminate|]. intros (? & ? & ? & Heq). discriminate.
Qed.

(** X10: [UnmarshalCaddyfile] replaces the configuration of the matcher
    and does not merge into it: the configuration it stores does not
    depend on the one the matcher had, and unmarshalling the same tokens
    again into the resulting matcher gives that matcher again; when it
    returns an error, the matcher is as it was. *)
Theorem UnmarshalCaddyfile_replaces fuel m d m' d' e :
  UnmarshalCaddyfile fuel m d = Some (Ok (m', d', e)) →
  (e = None →
   UnmarshalFromCaddy fuel zero_Config d = Some (MConfig m', d', None)
   ∧ LanguageMatcher m' = LanguageMatcher m
   ∧ logger m' = logger m
   ∧ UnmarshalCaddyfile fuel m' d = Some (Ok (m', d', None)))
  ∧ (e ≠ None → m' = m).
Proof.
  unfold UnmarshalCaddyfile.
  destruct (UnmarshalFromCaddy fuel zero_Config d)
    as [[[cfg d1] [err|]]|] eqn:Hrun; [| |discriminate].
  - destruct (logger m); intros Heq; simplify_eq. split; [discriminate|done].
  - intros Heq; simplify_eq; simpl. split; [|done]. intros _.
    by repeat split.
Qed.

(** More fuel does not change a result. *)
Lemma block_fuel_mono fuel fuel' nesting c d x :
  fuel ≤ fuel' → block fuel nesting c d = Some x →
  block fuel' nesting c d = Some x.
Proof.
  revert fuel' c d. induction fuel as [|fuel IH]; intros fuel' c d Hle;
    simpl; [discriminate|].
  destruct fuel' as [|fuel']; [lia|]. simpl.
  destruct (caddyfile.NextBlock d nesting) as [[|] d1]; [|done].
  destruct (directive c d1) as [[c2 d2] [err2|]]; [done|].
  apply IH. lia.
Qed.

Lemma UnmarshalFromCaddy_fuel_mono fuel fuel' c d x :
  fuel ≤ fuel' → UnmarshalFromCaddy fuel c d = Some x →
  UnmarshalFromCaddy fuel' c d = Some x.
Proof.
  revert fuel' c d. induction fuel as [|fuel IH]; intros fuel' c d Hle;
    simpl; [discriminate|].
  destruct fuel' as [|fuel']; [lia|]. simpl.
  destruct (caddyfile.Next d) as [[|] d1]; [|done].
  destruct (block fuel (caddyfile.Nesting d1) c d1)
    as [[[c2 d2] e2]|] eqn:Hblock; [|discriminate].
  rewrite (block_fuel_mono fuel fuel' _ _ _ _ ltac:(lia) Hblock).
  destruct e2; [done|]. apply IH. lia.
Qed.

Section Termination.
Variable remaining : caddyfile.D → nat.
Hypothesis Next_le : ∀ d, remaining (snd (caddyfile.Next d)) ≤ remaining d.
Hypothesis Next_lt :
  ∀ d, fst (caddyfile.Next d) = true →
       remaining (snd (caddyfile.Next d)) < remaining d.
Hypothesis NextBlock_le :
  ∀ d n, remaining (snd (caddyfile.NextBlock d n)) ≤ remaining d.
Hypothesis NextBlock_lt :
  ∀ d n, fst (caddyfile.NextBlock d n) = true →
         remaining (snd (caddyfile.NextBlock d n)) < remaining d.
Hypothesis RemainingArgs_le :
  ∀ d, remaining (snd (caddyfile.RemainingArgs d)) ≤ remaining d.

Lemma directive_remaining c d :
  remaining (snd (fst (directive c d))) ≤ remaining d.
Proof.
  unfold directive.
  pose proof (Next_le d) as HNext.
  pose proof (RemainingArgs_le d) as HArgs.
  destruct (String.eqb (caddyfile.Val d) "match_languages").
  { by destruct (caddyfile.RemainingArgs d). }
  destruct (String.eqb (caddyfile.Val d) "full_locale").
  { destruct (caddyfile.Next d) as [more d1].
    by destruct (strconv.ParseBool (caddyfile.Val d1)) as [boolVal [err1|]]. }
  destruct (String.eqb (caddyfile.Val d) "var_language").
  { by destruct (caddyfile.Next d). }
  destruct (String.eqb (caddyfile.Val d) "fallback_value").
  { by destruct (caddyfile.Next d). }
  done.
Qed.

Lemma block_terminates fuel nesting c d :
  remaining d + 1 ≤ fuel →
  ∃ c' d' e, block fuel nesting c d = Some (c', d', e)
             ∧ remaining d' ≤ remaining d.
Proof.
  revert c d. induction fuel as [|fuel IH]; intros c d Hfuel; [lia|]. simpl.
  pose proof (NextBlock_le d nesting) as Hle.
  pose proof (NextBlock_lt d nesting) as Hlt.
  destruct (caddyfile.NextBlock d nesting) as [[|] d1]; simpl in *.
  - specialize (Hlt eq_refl).
    pose proof (directive_remaining c d1) as Hdir.
    destruct (directive c d1) as [[c2 d2] [err2|]]; simpl in *.
    + eexists _, _, _. split; [reflexivity|lia].
    + destruct (IH c2 d2) as (c' & d' & e & Hrun & Hrem); [lia|].
      eexists _, _, _. split; [exact Hrun|lia].
  - eexists _, _, _. split; [reflexivity|lia].
Qed.

(** X11: on a dispenser whose methods never give tokens back and whose
    [Next] and [NextBlock] consume at least one token when they return
    true, [UnmarshalFromCaddy] returns: two more iterations than there
    are tokens left are enough. *)
Theorem UnmarshalFromCaddy_terminates fuel c d :
  remaining d + 2 ≤ fuel →
  ∃ c' d' e, UnmarshalFromCaddy fuel c d = Some (c', d', e).
Proof.
  revert c d. induction fuel as [|fuel IH]; intros c d Hfuel; [lia|]. simpl.
  pose proof (Next_lt d) as Hlt.
  destruct (caddyfile.Next d) as [[|] d1]; simpl in *; [|by eauto].
  specialize (Hlt eq_refl).
  destruct (block_terminates fuel (caddyfile.Nesting d1) c d1)
    as (c2 & d2 & e2 & -> & Hrem); [lia|].
  destruct e2; [by eauto|].
  apply IH. lia.
Qed.

End Termination.

End UnmarshalFacts.

(** * The sample dispenser consumes its tokens *)

Lemma tokens_collect_length cur ts :
  length (snd (tokens.collect cur ts)) ≤ length ts.
Proof.
  revert cur. induction ts as [|t ts IH]; intros cur; simpl; [done|].
  destruct (tokens.same_line cur t && negb (String.eqb (tokens.Text t) "{"));
    simpl; [|done].
  specialize (IH (Some t)).
  destruct (tokens.collect (Some t) ts) as [[args cur'] ts'']. simpl in *. lia.
Qed.

Lemma tokens_RemainingArgs_le (d : tokens.state) :
  tokens.remaining (snd (tokens.RemainingArgs d)) ≤ tokens.remaining d.
Proof.
  unfold tokens.RemainingArgs, tokens.remaining.
  pose proof (tokens_collect_length (tokens.current d) (tokens.rest d)) as Hlen.
  by destruct (tokens.collect (tokens.current d) (tokens.rest d)) as [[args cur] ts].
Qed.

Lemma tokens_Next_le (d : tokens.state) :
  tokens.remaining (snd (tokens.Next d)) ≤ tokens.remaining d.
Proof.
  unfold tokens.Next, tokens.remaining.
  destruct (tokens.rest d) eqn:Hrest; simpl; rewrite ?Hrest; simpl; lia.
Qed.

Lemma tokens_Next_lt (d : tokens.state) :
  fst (tokens.Next d) = true →
  tokens.remaining (snd (tokens.Next d)) < tokens.remaining d.
Proof.
  unfold tokens.Next, tokens.remaining.
  destruct (tokens.rest d) eqn:Hrest; simpl; [discriminate|lia].
Qed.

Lemma tokens_NextBlock_le (d : tokens.state) (n : Z) :
  tokens.remaining (snd (tokens.NextBlock d n)) ≤ tokens.remaining d.
Proof.
  unfold tokens.NextBlock, tokens.remaining.
  destruct (n <? tokens.nesting d)%Z.
  - destruct (tokens.rest d) eqn:Hrest; simpl; rewrite ?Hrest; simpl; lia.
  - destruct (tokens.rest d) as [|t ts] eqn:Hrest; simpl;
      [rewrite Hrest; simpl; lia|].
    destruct (tokens.same_line (tokens.current d) t
              && String.eqb (tokens.Text t) "{"); simpl;
      [|rewrite Hrest; simpl; lia].
    destruct ts as [|t2 ts2]; simpl; [lia|].
    destruct (String.eqb (tokens.Text t2) "}"); simpl; lia.
Qed.

Lemma tokens_NextBlock_lt (d : tokens.state) (n : Z) :
  fst (tokens.NextBlock d n) = true →
  tokens.remaining (snd (tokens.NextBlock d n)) < tokens.remaining d.
Proof.
  unfold tokens.NextBlock, tokens.remaining.
  destruct (n <? tokens.nesting d)%Z.
  - destruct (tokens.rest d) eqn:Hrest; simpl; [discriminate|lia].
  - destruct (tokens.rest d) as [|t ts] eqn:Hrest; simpl; [discriminate|].
    destruct (tokens.same_line (tokens.current d) t
              && String.eqb (tokens.Text t) "{"); simpl; [|discriminate].
    destruct ts as [|t2 ts2]; simpl; [lia|].
    destruct (String.eqb (tokens.Text t2) "}"); simpl; [discriminate|lia].
Qed.

(** * The further statements at sample inputs *)

Lemma Match_publishes_locale_witness :
  ∃ r',
    Match (provisioned (offer_deDE_en true)) (request_with "de-DE")
    = Ok (true, r')
    ∧ Vars r' !! "langneg_lang" = Some "de-DE".
Proof.
  apply (Match_publishes_locale (L := engine.lib)
           (New (offer_deDE_en true)) sample_context (request_with "de-DE"));
    [discriminate | reflexivity | discriminate].
Defined.

Lemma Match_always_defines_variable_witness :
  ∃ r',
    Match (provisioned (offer_de_en false "lang" "Fallback"))
          (request_with "fr-FR")
    = Ok (true, r')
    ∧ Vars r' !! "langneg_lang" = Some "Fallback".
Proof.
  apply (Match_always_defines_variable (L := engine.lib)
           (New (offer_de_en false "lang" "Fallback")) sample_context
           (request_with "fr-FR"));
    [reflexivity | discriminate | discriminate].
Defined.

Lemma Match_commute_witness :
  VarLanguage (offer_de_en false "short" "") ≠ VarLanguage (offer_deDE_en true)
  ∧ ∃ b1 b2 r1 r2 r12,
      Match (provisioned (offer_de_en false "short" "")) (request_with "de-DE")
      = Ok (b1, r1)
      ∧ Match (provisioned (offer_deDE_en true)) r1 = Ok (b2, r12)
      ∧ Match (provisioned (offer_deDE_en true)) (request_with "de-DE")
        = Ok (b2, r2)
      ∧ Match (provisioned (offer_de_en false "short" "")) r2 = Ok (b1, r12).
Proof.
  split; [discriminate|].
  apply (Match_commute (L := engine.lib)
           (New (offer_de_en false "short" "")) (New (offer_deDE_en true))
           sample_context sample_context (request_with "de-DE")).
  discriminate.
Defined.

Lemma UnmarshalFromCaddy_appends_witness :
  ∃ c' d' e,
    UnmarshalFromCaddy 20 (offer_de_en false "" "")
                       (tokens.start tokens.block_full)
    = Some (c', d', e)
    ∧ MatchLanguages c' = ["de"; "en"; "de"; "en"; "fr"]
    ∧ MatchLanguages (offer_de_en false "" "") `prefix_of` MatchLanguages c'.
Proof.
  eexists _, _, _. split; [by vm_compute|]. split; [reflexivity|].
  eapply (UnmarshalFromCaddy_appends (Dsp := tokens.dispenser)
            (Conv := tokens.conv) 20 (offer_de_en false "" "")
            (tokens.start tokens.block_full)).
  by vm_compute.
Defined.

Lemma UnmarshalFromCaddy_error_witness :
  ∃ c' d' err,
    UnmarshalFromCaddy 20 zero_Config (tokens.start tokens.block_bad_bool)
    = Some (c', d', Some err)
    ∧ ∃ v, snd (strconv.ParseBool v) = Some err.
Proof.
  eexists _, _, _. split; [by vm_compute|].
  eapply (UnmarshalFromCaddy_error (Dsp := tokens.dispenser)
            (Conv := tokens.conv) 20 zero_Config
            (tokens.start tokens.block_bad_bool)).
  by vm_compute.
Defined.

Lemma UnmarshalCaddyfile_without_logger_witness :
  logger (ModuleInfo_New (CaddyModule (L := engine.lib)) ()) = None
  ∧ UnmarshalCaddyfile 20 (ModuleInfo_New (CaddyModule (L := engine.lib)) ())
                       (tokens.start tokens.block_bad_bool)
    = Some Panic.
Proof.
  split; [reflexivity|].
  apply (proj1 (UnmarshalCaddyfile_without_logger (L := engine.lib)
                  (Dsp := tokens.dispenser) (Conv := tokens.conv) 20
                  (ModuleInfo_New CaddyModule ())
                  (tokens.start tokens.block_bad_bool) eq_refl)).
  eexists _, _, _. by vm_compute.
Defined.

Lemma UnmarshalCaddyfile_replaces_witness :
  UnmarshalCaddyfile 20 (provisioned (offer_deDE_en true))
                     (tokens.start tokens.block_full)
  = Some (Ok (unmarshalled_full, block_full_read, None))
  ∧ UnmarshalCaddyfile 20 unmarshalled_full (tokens.start tokens.block_full)
    = Some (Ok (unmarshalled_full, block_full_read, None)).
Proof.
  assert (UnmarshalCaddyfile 20 (provisioned (offer_deDE_en true))
                             (tokens.start tokens.block_full)
          = Some (Ok (unmarshalled_full, block_full_read, None))) as Hrun
    by reflexivity.
  split; [exact Hrun|].
  exact (proj2 (proj2 (proj2
           (proj1 (UnmarshalCaddyfile_replaces (L := engine.lib)
                     (Dsp := tokens.dispenser) (Conv := tokens.conv) 20
                     (provisioned (offer_deDE_en true))
                     (tokens.start tokens.block_full) _ _ None Hrun)
                  eq_refl)))).
Defined.

Lemma UnmarshalFromCaddy_terminates_witness :
  ∃ c' d' e,
    UnmarshalFromCaddy (tokens.remaining (tokens.start tokens.block_full) + 2)
                       zero_Config (tokens.start tokens.block_full)
    = Some (c', d', e).
Proof.
  apply (UnmarshalFromCaddy_terminates (Dsp := tokens.dispenser)
           (Conv := tokens.conv) tokens.remaining
           tokens_Next_le tokens_Next_lt tokens_NextBlock_le
           tokens_NextBlock_lt tokens_RemainingArgs_le).
  reflexivity.
Defined.

(** * The full locale extends the language *)

Section LocaleShape.
Context {L : language.Lib}.
Implicit Types (m : Matcher) (r : Request) (ctx : Context).

Lemma String_append_empty (s : string) : s +:+ "" = s.
Proof.
  induction s as [|a s IH]; [done|].
  change (String a (s +:+ "") = String a s). by rewrite IH.
Qed.

(** X12: for two provisioned matchers that offer the same languages,
    one with [FullLocale] and one without, and a selected tag other than
    Root whose base has confidence [Exact]: both report a match, and the
    value with [FullLocale] is the value without it, followed by nothing
    or by a hyphen and further components. *)
Theorem matchLanguage_full_extends_short m_full m_short ctx1 ctx2 r :
  MatchLanguages (MConfig m_full) = MatchLanguages (MConfig m_short) →
  FullLocale (MConfig m_full) = true →
  FullLocale (MConfig m_short) = false →
  language.Tag_IsRoot (negotiated_tag (MConfig m_full) r) = false →
  snd (language.Tag_Base (negotiated_tag (MConfig m_full) r)) = language.Exact →
  ∃ short suffix,
    matchLanguage (fst (Provision m_short ctx2)) r = Ok (true, short)
    ∧ matchLanguage (fst (Provision m_full ctx1)) r
      = Ok (true, short +:+ suffix)
    ∧ (suffix = "" ∨ ∃ more, suffix = "-" +:+ more).
Proof.
  intros Hoffered Hfull Hshort Hroot Hbase.
  rewrite !matchLanguage_provisioned. cbv zeta.
  assert (negotiated_tag (MConfig m_short) r = negotiated_tag (MConfig m_full) r)
    as -> by (unfold negotiated_tag; by rewrite Hoffered).
  rewrite Hroot, Hfull, Hshort.
  unfold format_locale, exact_components, components. simpl.
  rewrite Hbase. rewrite decide_True by done. simpl.
  repeat case_decide; simpl.
  1-3: eexists _, _; split; [reflexivity|];
       split; [reflexivity|]; right; by eexists.
  eexists _, "". split; [reflexivity|].
  split; [by rewrite String_append_empty|]. by left.
Qed.

End LocaleShape.

Lemma matchLanguage_full_extends_short_witness :
  ∃ short suffix,
    matchLanguage (provisioned (offer_deDE_en false)) (request_with "de-DE")
    = Ok (true, short)
    ∧ matchLanguage (provisioned (offer_deDE_en true)) (request_with "de-DE")
      = Ok (true, short +:+ suffix)
    ∧ (suffix = "" ∨ ∃ more, suffix = "-" +:+ more).
Proof.
  apply (matchLanguage_full_extends_short (L := engine.lib)
           (New (offer_deDE_en true)) (New (offer_deDE_en false))
           sample_context sample_context (request_with "de-DE"));
    reflexivity.
Defined.
